(** * apiWatch.ts: the watch adapter of vue-mp

    A shallow embedding of [src/apiWatch.ts].  The adapter turns a watch
    request into one call of the dependency engine's [baseWatch], after
    attaching three hooks to the options object ([call], [scheduler],
    [augmentJob]).  The collaborators it talks to (the diagnostics channel,
    the engine, the job scheduler, the error handler) are external: a call
    to one of them is an event of the program, answered by the world. *)

From Stdlib Require Import ZArith String List Bool Lia.
From stdpp Require Import base option gmap strings.
Import ListNotations.

(** ** JavaScript values *)

(** Modelled from the spec: the host instance of [./shared/instance] is not
    among the sources; it has an identity ([instance_ref]) and a stable
    unique ordering key ([uid]), the one field the adapter reads. *)
Record ComponentInstance : Type := {
  uid : Z;
  instance_ref : nat
}.

(** Values that travel through the options object.  Functions are kept by
    identity: a function of the caller ([UserFn]), an imported collaborator
    ([warn_fn], [queuePostCb_fn]) or one of the three arrow functions that
    [doWatch] creates, each with the variables it closes over. *)
Inductive JsVal : Type :=
| VUndefined
| VNull
| VBool (b : bool)
| VNum (n : Z)
| VStr (s : string)
| VFun (f : Fn)
with Fn : Type :=
| UserFn (n : nat)
| warn_fn
| queuePostCb_fn
| call_closure (instance : option ComponentInstance)
| scheduler_closure
| augmentJob_closure (cb : JsVal) (isPre : bool)
    (instance : option ComponentInstance).

(** A plain object: own properties by name. *)
Abbreviation Obj := (gmap string JsVal).

(** [o.k]: a missing property reads as [undefined]. *)
Definition prop (o : Obj) (k : string) : JsVal :=
  match o !! k with
  | Some v => v
  | None => VUndefined
  end.

(** [v !== undefined] *)
Definition not_undefined (v : JsVal) : bool :=
  match v with
  | VUndefined => false
  | _ => true
  end.

(** [v === s] for a string literal [s]. *)
Definition strict_eq_str (v : JsVal) (s : string) : bool :=
  match v with
  | VStr s' => String.eqb s' s
  | _ => false
  end.

(** ToBoolean.  Numbers are the integer-valued ones, so no NaN. *)
Definition truthy (v : JsVal) : bool :=
  match v with
  | VUndefined | VNull => false
  | VBool b => b
  | VNum n => negb (Z.eqb n 0)
  | VStr s => negb (String.eqb s EmptyString)
  | VFun _ => true
  end.

(** ToInt32 on an integer-valued number: wrap into [-2^31, 2^31). *)
Definition ToInt32 (n : Z) : Z :=
  ((n + 2 ^ 31) mod 2 ^ 32 - 2 ^ 31)%Z.

Definition int32 (n : Z) : Prop :=
  (- 2 ^ 31 <= n < 2 ^ 31)%Z.

(** [a | b] where [a] may be [undefined] (ToNumber gives NaN, ToInt32 of
    which is 0). *)
Definition bitor (a : option Z) (b : Z) : Z :=
  Z.lor (match a with Some n => ToInt32 n | None => 0%Z end) (ToInt32 b).

(** ** Scheduler jobs ([./vue/scheduler]) *)

Module SchedulerJob.

(** Modelled from the spec: the [SchedulerJob] interface of [./vue/scheduler]
    is not among the sources; a job is a callable with an identity ([ref]),
    a [flags] bitset, the ordering key [id] and the owning instance [i], the
    three properties the adapter writes, and whatever other own properties
    it carries ([others]).  A property not yet assigned is [None]. *)
Record t : Type := mk {
  ref : nat;
  flags : option Z;
  id : option Z;
  i : option ComponentInstance;
  others : gmap string JsVal
}.

Definition set_flags (job : t) (v : Z) : t :=
  mk (ref job) (Some v) (id job) (i job) (others job).

Definition set_id (job : t) (v : Z) : t :=
  mk (ref job) (flags job) (Some v) (i job) (others job).

Definition set_i (job : t) (v : ComponentInstance) : t :=
  mk (ref job) (flags job) (id job) (Some v) (others job).

(** The flag word as the bit operations see it. *)
Definition flag_word (job : t) : Z :=
  match flags job with
  | Some n => n
  | None => 0%Z
  end.

(** All bits of mask [m] are set on the job. *)
Definition has_flag (job : t) (m : Z) : Prop :=
  Z.land (flag_word job) m = m.

End SchedulerJob.

Abbreviation SchedulerJob := SchedulerJob.t.

(** ** The engine's side of a registration *)

(** What is watched; the adapter hands it to the engine untouched. *)
Inductive Source : Type :=
| SingleSource (getter : nat)
| SourceList (sources : list nat)
| DeepObject (object : nat).

Record WatchHandle : Type := { handle_ref : nat }.

(** ** Programs over the collaborators *)

(** One constructor per collaborator entry point the file calls. *)
Inductive Ext : Type :=
| Warn (msg : string)
| BaseWatch (source : Source) (cb : JsVal) (options : Obj)
| CallWithAsyncErrorHandling (fn : JsVal)
    (instance : option ComponentInstance) (type : string)
    (args : option (list JsVal))
| QueueJob (job : SchedulerJob)
| QueuePostCb (job : SchedulerJob) (isFirstRun : bool)
| RunJob (job : SchedulerJob).

(** What each call answers. *)
Definition Resp (e : Ext) : Type :=
  match e with
  | BaseWatch _ _ _ => WatchHandle
  | CallWithAsyncErrorHandling _ _ _ _ => JsVal
  | _ => unit
  end.

Inductive Prog (A : Type) : Type :=
| Ret (a : A)
| Vis (e : Ext) (k : Resp e -> Prog A).

Arguments Ret {A} a.
Arguments Vis {A} e k.

Fixpoint bind {A B : Type} (p : Prog A) (f : A -> Prog B) : Prog B :=
  match p with
  | Ret a => f a
  | Vis e k => Vis e (fun x => bind (k x) f)
  end.

Definition trigger (e : Ext) : Prog (Resp e) := Vis e Ret.

Declare Scope prog_scope.
Delimit Scope prog_scope with prog.
Notation "'let*' x ':=' p 'in' q" := (bind p (fun x => q))
  (at level 10, x name, p at level 100, q at level 200) : prog_scope.
Notation "'run' p 'then' q" := (bind p (fun _ => q))
  (at level 10, p at level 100, q at level 200) : prog_scope.

(** [if (c) stmt] for a statement without result. *)
Definition when (c : bool) (p : Prog unit) : Prog unit :=
  if c then p else Ret tt.

(** A call either returns or throws; the adapter has no [try], so what a
    collaborator throws ends the program. *)
Inductive Outcome (A : Type) : Type :=
| Returned (a : A)
| Thrown (e : JsVal).

Arguments Returned {A} a.
Arguments Thrown {A} e.

Definition World : Type := forall e : Ext, Outcome (Resp e).

Fixpoint exec {A : Type} (w : World) (p : Prog A) : list Ext * Outcome A :=
  match p with
  | Ret a => ([], Returned a)
  | Vis e k =>
      match w e with
      | Returned x => let '(t, r) := exec w (k x) in (e :: t, r)
      | Thrown err => ([e], Thrown err)
      end
  end.

Definition trace {A : Type} (w : World) (p : Prog A) : list Ext :=
  fst (exec w p).

Definition outcome {A : Type} (w : World) (p : Prog A) : Outcome A :=
  snd (exec w p).

(** The collaborators' entry points, as the file imports them. *)
Definition warn (msg : string) : Prog unit := trigger (Warn msg).

Definition baseWatch (source : Source) (cb : JsVal) (options : Obj)
  : Prog WatchHandle :=
  trigger (BaseWatch source cb options).

Definition callWithAsyncErrorHandling (fn : JsVal)
  (instance : option ComponentInstance) (type : string)
  (args : option (list JsVal)) : Prog JsVal :=
  trigger (CallWithAsyncErrorHandling fn instance type args).

Definition queueJob (job : SchedulerJob) : Prog unit :=
  trigger (QueueJob job).

Definition queuePostCb (job : SchedulerJob) (isFirstRun : bool) : Prog unit :=
  trigger (QueuePostCb job isFirstRun).

(** [job()] *)
Definition run_job (job : SchedulerJob) : Prog unit :=
  trigger (RunJob job).

(** ** apiWatch.ts *)

(** What the module reads from its surroundings: the build flag and the
    ambient instance of [./shared/instance]. *)
Record Env : Type := {
  __DEV__ : bool;
  currentInstance : option ComponentInstance
}.

(** Modelled from the spec: [EMPTY_OBJ] of [./vue/shared] is not among the
    sources; it stands for a configuration with every field missing. *)
Definition EMPTY_OBJ : Obj := ∅.

(** Modelled from the spec: [isFunction] of [./shared/utils] is not among the
    sources; a callback is a function value. *)
Definition isFunction (v : JsVal) : bool :=
  match v with
  | VFun _ => true
  | _ => false
  end.

Definition dquote : string := String (Ascii.ascii_of_nat 34) EmptyString.

(** The three diagnostics of [doWatch] differ in the option's name only. *)
Definition only_respected (name : string) : string :=
  String.append "watch() "
    (String.append dquote
       (String.append name
          (String.append dquote
             (String.append " option is only respected when using the "
                "watch(source, callback, options?) signature.")))).

Definition signature_moved : string :=
  String.append
    "`watch(fn, options?)` signature has been moved to a separate API. "
    (String.append
       "Use `watchEffect(fn, options?)` instead. `watch` now only "
       "supports `watch(source, cb, options?) signature.").

(** [baseWatchOptions.call] (line 175). *)
Definition call (instance : option ComponentInstance) (fn : JsVal)
  (type : string) (args : option (list JsVal)) : Prog JsVal :=
  callWithAsyncErrorHandling fn instance type args.

(** [baseWatchOptions.scheduler] of the default flush mode (line 185). *)
Definition scheduler (job : SchedulerJob) (isFirstRun : bool) : Prog unit :=
  if isFirstRun then run_job job else queueJob job.

Definition doWatch (env : Env) (source : Source) (cb : JsVal)
  (options : option Obj) : Prog WatchHandle :=
  (let options := match options with Some o => o | None => EMPTY_OBJ end in
   let immediate := prop options "immediate" in
   let deep := prop options "deep" in
   let flush := prop options "flush" in
   let once := prop options "once" in
   run when (__DEV__ env && negb (truthy cb))
         (run when (not_undefined immediate)
                (warn (only_respected "immediate")) then
          run when (not_undefined deep)
                (warn (only_respected "deep")) then
          when (not_undefined once)
            (warn (only_respected "once"))) then
   let baseWatchOptions : Obj := options in
   let baseWatchOptions :=
     if __DEV__ env then <["onWarn" := VFun warn_fn]> baseWatchOptions
     else baseWatchOptions in
   let instance := currentInstance env in
   let baseWatchOptions :=
     <["call" := VFun (call_closure instance)]> baseWatchOptions in
   let isPre := false in
   let '(isPre, baseWatchOptions) :=
     if strict_eq_str flush "post" then
       (isPre, <["scheduler" := VFun queuePostCb_fn]> baseWatchOptions)
     else if negb (strict_eq_str flush "sync") then
       (true, <["scheduler" := VFun scheduler_closure]> baseWatchOptions)
     else (isPre, baseWatchOptions) in
   let baseWatchOptions :=
     <["augmentJob" := VFun (augmentJob_closure cb isPre instance)]>
       baseWatchOptions in
   let* watchHandle := baseWatch source cb baseWatchOptions in
   Ret watchHandle)%prog.

(** [{ ...options }] for an optional object. *)
Definition spread (options : option Obj) : Obj :=
  match options with
  | Some o => o
  | None => ∅
  end.

Definition watchEffect (env : Env) (effect : Source) (options : option Obj)
  : Prog WatchHandle :=
  doWatch env effect VNull options.

Definition watchPostEffect (env : Env) (effect : Source)
  (options : option Obj) : Prog WatchHandle :=
  doWatch env effect VNull
    (Some (if __DEV__ env then <["flush" := VStr "post"]> (spread options)
           else {["flush" := VStr "post"]})).

Definition watchSyncEffect (env : Env) (effect : Source)
  (options : option Obj) : Prog WatchHandle :=
  doWatch env effect VNull
    (Some (if __DEV__ env then <["flush" := VStr "sync"]> (spread options)
           else {["flush" := VStr "sync"]})).

Definition watch (env : Env) (source : Source) (cb : JsVal)
  (options : option Obj) : Prog WatchHandle :=
  (run when (__DEV__ env && negb (isFunction cb)) (warn signature_moved) then
   doWatch env source cb options)%prog.

Section Adapter.

(** [SchedulerJobFlags.ALLOW_RECURSE] and [SchedulerJobFlags.PRE]: the enum
    is declared in [./vue/scheduler], which is not among the sources, so the
    two masks are parameters of the development. *)
Variables ALLOW_RECURSE PRE : Z.

(** [baseWatchOptions.augmentJob] (line 194); the job is mutated in place,
    here the updated job is returned. *)
Definition augmentJob (cb : JsVal) (isPre : bool)
  (instance : option ComponentInstance) (job : SchedulerJob) : SchedulerJob :=
  let job :=
    if truthy cb then
      SchedulerJob.set_flags job
        (bitor (SchedulerJob.flags job) ALLOW_RECURSE)
    else job in
  if isPre then
    let job :=
      SchedulerJob.set_flags job (bitor (SchedulerJob.flags job) PRE) in
    match instance with
    | Some inst =>
        let job := SchedulerJob.set_id job (uid inst) in
        SchedulerJob.set_i job inst
    | None => job
    end
  else job.

(** ** Calling a function value

    The engine calls the hooks it finds on the options object.  These give
    the body behind a function value, for the functions whose body this file
    knows. *)

Definition as_call (f : Fn)
  : option (JsVal -> string -> option (list JsVal) -> Prog JsVal) :=
  match f with
  | call_closure instance => Some (call instance)
  | _ => None
  end.

Definition as_scheduler (f : Fn)
  : option (SchedulerJob -> bool -> Prog unit) :=
  match f with
  | queuePostCb_fn => Some queuePostCb
  | scheduler_closure => Some scheduler
  | _ => None
  end.

Definition as_augmentJob (f : Fn) : option (SchedulerJob -> SchedulerJob) :=
  match f with
  | augmentJob_closure cb isPre instance => Some (augmentJob cb isPre instance)
  | _ => None
  end.

(** ** Reading a run *)

(** The registrations with the engine among the calls of a run. *)
Fixpoint registrations (t : list Ext) : list (Source * JsVal * Obj) :=
  match t with
  | [] => []
  | BaseWatch source cb options :: t' =>
      (source, cb, options) :: registrations t'
  | _ :: t' => registrations t'
  end.

(** The diagnostics among the calls of a run. *)
Fixpoint diagnostics (t : list Ext) : list string :=
  match t with
  | [] => []
  | Warn msg :: t' => msg :: diagnostics t'
  | _ :: t' => diagnostics t'
  end.

(** The options object of the one registration a run makes. *)
Definition registered (w : World) (p : Prog WatchHandle) : option Obj :=
  match registrations (trace w p) with
  | [(_, _, baseWatchOptions)] => Some baseWatchOptions
  | _ => None
  end.

Definition hook (o : Obj) (k : string) : option Fn :=
  match o !! k with
  | Some (VFun f) => Some f
  | _ => None
  end.

Definition installed_call (w : World) (p : Prog WatchHandle)
  : option (JsVal -> string -> option (list JsVal) -> Prog JsVal) :=
  match registered w p with
  | Some o => match hook o "call" with Some f => as_call f | None => None end
  | None => None
  end.

Definition installed_scheduler (w : World) (p : Prog WatchHandle)
  : option (SchedulerJob -> bool -> Prog unit) :=
  match registered w p with
  | Some o =>
      match hook o "scheduler" with Some f => as_scheduler f | None => None end
  | None => None
  end.

Definition installed_augmentJob (w : World) (p : Prog WatchHandle)
  : option (SchedulerJob -> SchedulerJob) :=
  match registered w p with
  | Some o =>
      match hook o "augmentJob" with
      | Some f => as_augmentJob f
      | None => None
      end
  | None => None
  end.

(** The [flush] a caller asks for. *)
Definition flush_of (options : option Obj) : JsVal :=
  prop (spread options) "flush".

(** [cb : WatchCallback | null] *)
Definition callback_or_null (cb : JsVal) : Prop :=
  cb = VNull \/ exists f, cb = VFun f.

(** The properties [WatchOptions] declares (with [DebuggerOptions]). *)
Definition WatchOptions_keys : gset string :=
  {[ "immediate"; "deep"; "once"; "flush"; "onTrack"; "onTrigger" ]}.

Definition WatchOptions_typed (options : option Obj) : Prop :=
  dom (spread options) ⊆ WatchOptions_keys.

(** The option names whose use without a callback is diagnosed. *)
Definition misuse_keys : list string := ["immediate"; "deep"; "once"].

(** A world that answers every call, for running examples. *)
Definition quiet : World :=
  fun e =>
    match e return Outcome (Resp e) with
    | Warn _ => Returned tt
    | BaseWatch _ _ _ => Returned {| handle_ref := 0 |}
    | CallWithAsyncErrorHandling _ _ _ _ => Returned VUndefined
    | QueueJob _ => Returned tt
    | QueuePostCb _ _ => Returned tt
    | RunJob _ => Returned tt
    end.

Definition dev : Env := {| __DEV__ := true; currentInstance := None |}.

Definition prod : Env := {| __DEV__ := false; currentInstance := None |}.

Definition fresh_job : SchedulerJob :=
  SchedulerJob.mk 0 None None None ∅.

(** A flag mask: its bits lie within the 32-bit flag word. *)
Definition flag_mask (m : Z) : Prop :=
  (0 <= m < 2 ^ 32)%Z.

(** What [doWatch] says and what it hands to the engine, written out: the
    run of [doWatch] is proved below to be these diagnostics followed by one
    registration with this options object. *)
Definition misuse_diagnostics (env : Env) (cb : JsVal) (options : option Obj)
  : list string :=
  if __DEV__ env && negb (truthy cb) then
    (if not_undefined (prop (spread options) "immediate")
     then [only_respected "immediate"] else []) ++
    (if not_undefined (prop (spread options) "deep")
     then [only_respected "deep"] else []) ++
    (if not_undefined (prop (spread options) "once")
     then [only_respected "once"] else [])
  else [].

Definition is_pre (options : option Obj) : bool :=
  negb (strict_eq_str (flush_of options) "post") &&
  negb (strict_eq_str (flush_of options) "sync").

Definition with_onWarn (env : Env) (o : Obj) : Obj :=
  if __DEV__ env then <["onWarn" := VFun warn_fn]> o else o.

Definition with_scheduler (options : option Obj) (o : Obj) : Obj :=
  if strict_eq_str (flush_of options) "post" then
    <["scheduler" := VFun queuePostCb_fn]> o
  else if is_pre options then <["scheduler" := VFun scheduler_closure]> o
  else o.

Definition passed_options (env : Env) (cb : JsVal) (options : option Obj)
  : Obj :=
  <["augmentJob" :=
      VFun (augmentJob_closure cb (is_pre options) (currentInstance env))]>
    (with_scheduler options
       (<["call" := VFun (call_closure (currentInstance env))]>
          (with_onWarn env (spread options)))).

(** A world whose diagnostics channel throws. *)
Definition failing_warn (err : JsVal) : World :=
  fun e =>
    match e return Outcome (Resp e) with
    | Warn _ => Thrown err
    | other => quiet other
    end.


(** The four properties [doWatch] may write on the options object. *)
Definition adapter_keys : list string :=
  ["onWarn"; "call"; "scheduler"; "augmentJob"].

(** The diagnostics channel is non-fatal: [warn] returns. *)
Definition warn_returns (w : World) : Prop :=
  forall msg, w (Warn msg) = Returned tt.

(** * Properties *)

(** ** Running programs *)

Lemma exec_bind {A B : Type} (w : World) (p : Prog A) (f : A -> Prog B) :
  exec w (bind p f) =
  match exec w p with
  | (t, Returned a) => let '(t', r) := exec w (f a) in (t ++ t', r)
  | (t, Thrown err) => (t, Thrown err)
  end.
Proof.
  induction p as [a | e k IH]; simpl.
  - destruct (exec w (f a)); reflexivity.
  - destruct (w e) as [x | err]; [| reflexivity].
    rewrite IH. destruct (exec w (k x)) as [t [a | err]]; [| reflexivity].
    destruct (exec w (f a)); reflexivity.
Qed.

Lemma exec_warn (w : World) (msg : string) :
  warn_returns w -> exec w (warn msg) = ([Warn msg], Returned tt).
Proof. intros Hw. unfold warn, trigger. simpl. rewrite Hw. reflexivity. Qed.

Lemma exec_when_warn (w : World) (c : bool) (msg : string) :
  warn_returns w ->
  exec w (when c (warn msg)) =
  (map Warn (if c then [msg] else []), Returned tt).
Proof.
  intros Hw. destruct c; simpl; [apply exec_warn; assumption | reflexivity].
Qed.

Lemma exec_trigger (w : World) (e : Ext) :
  exec w (trigger e) = ([e], w e).
Proof. unfold trigger. simpl. destruct (w e); reflexivity. Qed.

Lemma trace_trigger (w : World) (e : Ext) : trace w (trigger e) = [e].
Proof. unfold trace. rewrite exec_trigger. reflexivity. Qed.

Lemma outcome_trigger (w : World) (e : Ext) : outcome w (trigger e) = w e.
Proof. unfold outcome. rewrite exec_trigger. reflexivity. Qed.

Lemma registrations_app (t1 t2 : list Ext) :
  registrations (t1 ++ t2) = registrations t1 ++ registrations t2.
Proof.
  induction t1 as [| e t1 IH]; [reflexivity |].
  destruct e; simpl; rewrite IH; reflexivity.
Qed.

Lemma registrations_warn (l : list string) : registrations (map Warn l) = [].
Proof. induction l; simpl; auto. Qed.

Lemma diagnostics_app (t1 t2 : list Ext) :
  diagnostics (t1 ++ t2) = diagnostics t1 ++ diagnostics t2.
Proof.
  induction t1 as [| e t1 IH]; [reflexivity |].
  destruct e; simpl; rewrite IH; reflexivity.
Qed.

Lemma diagnostics_warn (l : list string) : diagnostics (map Warn l) = l.
Proof. induction l; simpl; f_equal; auto. Qed.

(** ** The run of [doWatch] *)

Lemma spread_default (options : option Obj) :
  match options with Some o => o | None => EMPTY_OBJ end = spread options.
Proof. destruct options; reflexivity. Qed.

Lemma doWatch_exec (w : World) (env : Env) (source : Source) (cb : JsVal)
  (options : option Obj) :
  warn_returns w ->
  exec w (doWatch env source cb options) =
  (map Warn (misuse_diagnostics env cb options) ++
     [BaseWatch source cb (passed_options env cb options)],
   w (BaseWatch source cb (passed_options env cb options))).
Proof.
  intros Hw.
  unfold doWatch, misuse_diagnostics, passed_options, with_scheduler,
    with_onWarn, is_pre, flush_of.
  rewrite spread_default.
  destruct (__DEV__ env), (truthy cb),
    (not_undefined (prop (spread options) "immediate")),
    (not_undefined (prop (spread options) "deep")),
    (not_undefined (prop (spread options) "once")),
    (strict_eq_str (prop (spread options) "flush") "post"),
    (strict_eq_str (prop (spread options) "flush") "sync");
    cbn [andb negb when bind warn baseWatch trigger exec map app];
    rewrite ?Hw; cbn [exec];
    match goal with
    | |- context [w (BaseWatch ?a ?b ?c)] => destruct (w (BaseWatch a b c))
    end; reflexivity.
Qed.

Lemma doWatch_registrations (w : World) (env : Env) (source : Source)
  (cb : JsVal) (options : option Obj) :
  warn_returns w ->
  registrations (trace w (doWatch env source cb options)) =
  [(source, cb, passed_options env cb options)].
Proof.
  intros Hw. unfold trace. rewrite doWatch_exec by assumption. simpl.
  rewrite registrations_app, registrations_warn. reflexivity.
Qed.

Lemma doWatch_registered (w : World) (env : Env) (source : Source)
  (cb : JsVal) (options : option Obj) :
  warn_returns w ->
  registered w (doWatch env source cb options) =
  Some (passed_options env cb options).
Proof.
  intros Hw. unfold registered.
  rewrite doWatch_registrations by assumption. reflexivity.
Qed.

Lemma doWatch_diagnostics (w : World) (env : Env) (source : Source)
  (cb : JsVal) (options : option Obj) :
  warn_returns w ->
  diagnostics (trace w (doWatch env source cb options)) =
  misuse_diagnostics env cb options.
Proof.
  intros Hw. unfold trace. rewrite doWatch_exec by assumption. simpl.
  rewrite diagnostics_app, diagnostics_warn. simpl. apply app_nil_r.
Qed.

(** [watch] is [doWatch] after at most one diagnostic of its own. *)
Lemma watch_exec (w : World) (env : Env) (source : Source) (cb : JsVal)
  (options : option Obj) :
  warn_returns w ->
  exec w (watch env source cb options) =
  (map Warn (if __DEV__ env && negb (isFunction cb)
             then [signature_moved] else []) ++
     map Warn (misuse_diagnostics env cb options) ++
     [BaseWatch source cb (passed_options env cb options)],
   w (BaseWatch source cb (passed_options env cb options))).
Proof.
  intros Hw. unfold watch.
  rewrite exec_bind, exec_when_warn, doWatch_exec by assumption.
  reflexivity.
Qed.

Lemma watch_registered (w : World) (env : Env) (source : Source)
  (cb : JsVal) (options : option Obj) :
  warn_returns w ->
  registered w (watch env source cb options) =
  registered w (doWatch env source cb options).
Proof.
  intros Hw. rewrite doWatch_registered by assumption.
  unfold registered, trace. rewrite watch_exec by assumption. cbn [fst].
  rewrite !registrations_app, !registrations_warn. reflexivity.
Qed.

(** ** The options object handed to the engine *)

Lemma passed_augmentJob (env : Env) (cb : JsVal) (options : option Obj) :
  passed_options env cb options !! "augmentJob" =
  Some (VFun (augmentJob_closure cb (is_pre options) (currentInstance env))).
Proof. unfold passed_options. apply lookup_insert_eq. Qed.

Lemma with_scheduler_other (options : option Obj) (o : Obj) (k : string) :
  k <> "scheduler" -> with_scheduler options o !! k = o !! k.
Proof.
  intros Hk. unfold with_scheduler.
  destruct (strict_eq_str (flush_of options) "post");
    [| destruct (is_pre options)];
    try reflexivity; apply lookup_insert_ne; congruence.
Qed.

Lemma with_onWarn_other (env : Env) (o : Obj) (k : string) :
  k <> "onWarn" -> with_onWarn env o !! k = o !! k.
Proof.
  intros Hk. unfold with_onWarn.
  destruct (__DEV__ env); [apply lookup_insert_ne; congruence | reflexivity].
Qed.

Lemma passed_call (env : Env) (cb : JsVal) (options : option Obj) :
  passed_options env cb options !! "call" =
  Some (VFun (call_closure (currentInstance env))).
Proof.
  unfold passed_options.
  rewrite lookup_insert_ne by discriminate.
  rewrite with_scheduler_other by discriminate.
  apply lookup_insert_eq.
Qed.

Lemma passed_scheduler (env : Env) (cb : JsVal) (options : option Obj) :
  passed_options env cb options !! "scheduler" =
  if strict_eq_str (flush_of options) "post" then Some (VFun queuePostCb_fn)
  else if is_pre options then Some (VFun scheduler_closure)
  else spread options !! "scheduler".
Proof.
  unfold passed_options.
  rewrite lookup_insert_ne by discriminate.
  unfold with_scheduler.
  destruct (strict_eq_str (flush_of options) "post");
    [apply lookup_insert_eq |].
  destruct (is_pre options); [apply lookup_insert_eq |].
  rewrite lookup_insert_ne by discriminate.
  apply with_onWarn_other. discriminate.
Qed.

Lemma passed_other (env : Env) (cb : JsVal) (options : option Obj)
  (k : string) :
  k <> "augmentJob" -> k <> "scheduler" -> k <> "call" -> k <> "onWarn" ->
  passed_options env cb options !! k = spread options !! k.
Proof.
  intros H1 H2 H3 H4. unfold passed_options.
  rewrite lookup_insert_ne by congruence.
  rewrite with_scheduler_other by assumption.
  rewrite lookup_insert_ne by congruence.
  apply with_onWarn_other. assumption.
Qed.

Lemma flush_pre_or_omitted (options : option Obj) :
  flush_of options = VStr "pre" \/ flush_of options = VUndefined ->
  strict_eq_str (flush_of options) "post" = false /\ is_pre options = true.
Proof.
  unfold is_pre. intros [H | H]; rewrite H; split; reflexivity.
Qed.

Lemma flush_post (options : option Obj) :
  flush_of options = VStr "post" ->
  strict_eq_str (flush_of options) "post" = true /\ is_pre options = false.
Proof. unfold is_pre. intros H; rewrite H; split; reflexivity. Qed.

Lemma flush_sync (options : option Obj) :
  flush_of options = VStr "sync" ->
  strict_eq_str (flush_of options) "post" = false /\ is_pre options = false.
Proof. unfold is_pre. intros H; rewrite H; split; reflexivity. Qed.

Lemma doWatch_installed_scheduler (w : World) (env : Env) (source : Source)
  (cb : JsVal) (options : option Obj) :
  warn_returns w ->
  installed_scheduler w (doWatch env source cb options) =
  match passed_options env cb options !! "scheduler" with
  | Some (VFun f) => as_scheduler f
  | _ => None
  end.
Proof.
  intros Hw. unfold installed_scheduler, hook.
  rewrite doWatch_registered by assumption.
  destruct (passed_options env cb options !! "scheduler") as [[] |];
    reflexivity.
Qed.

Lemma doWatch_installed_augmentJob (w : World) (env : Env) (source : Source)
  (cb : JsVal) (options : option Obj) :
  warn_returns w ->
  installed_augmentJob w (doWatch env source cb options) =
  Some (augmentJob cb (is_pre options) (currentInstance env)).
Proof.
  intros Hw. unfold installed_augmentJob, hook.
  rewrite doWatch_registered by assumption.
  rewrite passed_augmentJob. reflexivity.
Qed.

Lemma doWatch_installed_call (w : World) (env : Env) (source : Source)
  (cb : JsVal) (options : option Obj) :
  warn_returns w ->
  installed_call w (doWatch env source cb options) =
  Some (call (currentInstance env)).
Proof.
  intros Hw. unfold installed_call, hook.
  rewrite doWatch_registered by assumption.
  rewrite passed_call. reflexivity.
Qed.

(** ** Flush policy *)

(** C1. With flush 'pre' or no flush, the scheduler that [doWatch] installs
    runs the job itself, once, and queues nothing when [isFirstRun] is true;
    when it is false it hands the job to [queueJob], once, and does not run
    it. *)
Theorem pre_scheduler_first_run_then_queue (w : World) (env : Env)
  (source : Source) (cb : JsVal) (options : option Obj) :
  warn_returns w ->
  flush_of options = VStr "pre" \/ flush_of options = VUndefined ->
  exists sched,
    installed_scheduler w (doWatch env source cb options) = Some sched /\
    forall (w' : World) (job : SchedulerJob),
      trace w' (sched job true) = [RunJob job] /\
      trace w' (sched job false) = [QueueJob job].
Proof.
  intros Hw Hflush. apply flush_pre_or_omitted in Hflush as [Hpost Hpre].
  exists scheduler. split.
  - rewrite doWatch_installed_scheduler by assumption.
    rewrite passed_scheduler, Hpost, Hpre. reflexivity.
  - intros w' job. split.
    + exact (trace_trigger w' (RunJob job)).
    + exact (trace_trigger w' (QueueJob job)).
Qed.

(** C4. With flush 'sync', [doWatch] puts no scheduler on the options it
    hands to the engine: for options of the declared [WatchOptions] shape
    the [scheduler] property is absent. *)
Theorem sync_installs_no_scheduler (w : World) (env : Env) (source : Source)
  (cb : JsVal) (options : option Obj) :
  warn_returns w ->
  WatchOptions_typed options ->
  flush_of options = VStr "sync" ->
  exists baseWatchOptions,
    registered w (doWatch env source cb options) = Some baseWatchOptions /\
    baseWatchOptions !! "scheduler" = None /\
    prop baseWatchOptions "scheduler" = VUndefined /\
    installed_scheduler w (doWatch env source cb options) = None.
Proof.
  intros Hw Hty Hflush. apply flush_sync in Hflush as [Hpost Hpre].
  assert (Hnone : spread options !! "scheduler" = None).
  { apply not_elem_of_dom. intros Hin. apply Hty in Hin.
    unfold WatchOptions_keys in Hin.
    rewrite !elem_of_union, !elem_of_singleton in Hin.
    intuition discriminate. }
  assert (Hs : passed_options env cb options !! "scheduler" = None).
  { rewrite passed_scheduler, Hpost, Hpre. assumption. }
  exists (passed_options env cb options).
  split; [apply doWatch_registered; assumption |].
  split; [assumption |].
  split; [unfold prop; rewrite Hs; reflexivity |].
  rewrite doWatch_installed_scheduler by assumption. rewrite Hs. reflexivity.
Qed.

(** C8. With flush 'post', the scheduler is [queuePostCb] itself: every
    call of it, first run or not, is one call of [queuePostCb] with the same
    arguments. *)
Theorem post_scheduler_is_queuePostCb (w : World) (env : Env)
  (source : Source) (cb : JsVal) (options : option Obj) :
  warn_returns w ->
  flush_of options = VStr "post" ->
  exists baseWatchOptions,
    registered w (doWatch env source cb options) = Some baseWatchOptions /\
    baseWatchOptions !! "scheduler" = Some (VFun queuePostCb_fn) /\
    installed_scheduler w (doWatch env source cb options) = Some queuePostCb /\
    forall (w' : World) (job : SchedulerJob) (isFirstRun : bool),
      trace w' (queuePostCb job isFirstRun) = [QueuePostCb job isFirstRun].
Proof.
  intros Hw Hflush. apply flush_post in Hflush as [Hpost Hpre].
  assert (Hs : passed_options env cb options !! "scheduler" =
               Some (VFun queuePostCb_fn)).
  { rewrite passed_scheduler, Hpost. reflexivity. }
  exists (passed_options env cb options).
  split; [apply doWatch_registered; assumption |].
  split; [assumption |].
  split.
  - rewrite doWatch_installed_scheduler by assumption. rewrite Hs. reflexivity.
  - intros w' job b. exact (trace_trigger w' (QueuePostCb job b)).
Qed.

(** ** Error handling *)

(** C7. The [call] hook that [doWatch] installs is one call of
    [callWithAsyncErrorHandling] with the function, the instance that was
    current at registration (or null), the caller's type tag and the
    arguments; its outcome is that call's outcome, so it throws only if the
    error handler does. *)
Theorem call_routes_through_error_handling (w : World) (env : Env)
  (source : Source) (cb : JsVal) (options : option Obj) :
  warn_returns w ->
  exists callfn,
    installed_call w (doWatch env source cb options) = Some callfn /\
    forall (w' : World) (fn : JsVal) (type : string)
           (args : option (list JsVal)),
      trace w' (callfn fn type args) =
        [CallWithAsyncErrorHandling fn (currentInstance env) type args] /\
      outcome w' (callfn fn type args) =
        w' (CallWithAsyncErrorHandling fn (currentInstance env) type args) /\
      ((forall f inst t a, exists v,
           w' (CallWithAsyncErrorHandling f inst t a) = Returned v) ->
       exists v, outcome w' (callfn fn type args) = Returned v).
Proof.
  intros Hw. exists (call (currentInstance env)).
  split; [apply doWatch_installed_call; assumption |].
  intros w' fn type args.
  pose (e := CallWithAsyncErrorHandling fn (currentInstance env) type args).
  split; [exact (trace_trigger w' e) |].
  split; [exact (outcome_trigger w' e) |].
  intros Hc. destruct (Hc fn (currentInstance env) type args) as [v Hv].
  exists v. transitivity (w' e); [exact (outcome_trigger w' e) | exact Hv].
Qed.

(** ** Flag words *)

Lemma testbit_ToInt32 (x n : Z) :
  (0 <= n < 32)%Z -> Z.testbit (ToInt32 x) n = Z.testbit x n.
Proof.
  intros Hn. unfold ToInt32.
  rewrite <- (Z.mod_pow2_bits_low _ 32 n) by lia.
  rewrite Zminus_mod_idemp_l.
  replace (x + 2 ^ 31 - 2 ^ 31)%Z with x by lia.
  apply Z.mod_pow2_bits_low. lia.
Qed.

Lemma testbit_bitor (a : option Z) (m n : Z) :
  (0 <= n < 32)%Z ->
  Z.testbit (bitor a m) n =
  (Z.testbit (match a with Some x => x | None => 0%Z end) n
   || Z.testbit m n)%bool.
Proof.
  intros Hn. unfold bitor. rewrite Z.lor_spec.
  rewrite (testbit_ToInt32 m) by assumption.
  destruct a as [x |]; [rewrite testbit_ToInt32 by assumption |]; reflexivity.
Qed.

Lemma flag_mask_high (m n : Z) :
  flag_mask m -> (32 <= n)%Z -> Z.testbit m n = false.
Proof.
  intros [Hlo Hhi] Hn.
  destruct (Z.eq_dec m 0%Z) as [-> | Hm]; [apply Z.bits_0 |].
  apply Z.bits_above_log2; [assumption |].
  apply Z.lt_le_trans with 32%Z; [| assumption].
  apply Z.log2_lt_pow2; lia.
Qed.

Lemma has_flag_bits (job : SchedulerJob) (m : Z) :
  flag_mask m ->
  SchedulerJob.has_flag job m <->
  forall n, (0 <= n < 32)%Z -> Z.testbit m n = true ->
            Z.testbit (SchedulerJob.flag_word job) n = true.
Proof.
  intros Hm. unfold SchedulerJob.has_flag. split.
  - intros H n Hn Hbit. rewrite <- H in Hbit.
    rewrite Z.land_spec in Hbit. apply andb_true_iff in Hbit. tauto.
  - intros H. apply Z.bits_inj'. intros n Hn. rewrite Z.land_spec.
    destruct (Z.testbit m n) eqn:Hbit; [| apply andb_false_r].
    rewrite andb_true_r. apply H; [| assumption].
    split; [assumption |].
    destruct (Z_lt_le_dec n 32%Z) as [Hlt | Hge]; [assumption |].
    rewrite (flag_mask_high m n Hm Hge) in Hbit. discriminate.
Qed.

Lemma disjoint_bits (a b n : Z) :
  Z.land a b = 0%Z -> Z.testbit a n = true -> Z.testbit b n = false.
Proof.
  intros H Ha.
  assert (Hn : Z.testbit (Z.land a b) n = false) by (rewrite H; apply Z.bits_0).
  rewrite Z.land_spec, Ha in Hn. exact Hn.
Qed.

Lemma ToInt32_range (x : Z) : int32 (ToInt32 x).
Proof.
  unfold int32, ToInt32.
  pose proof (Z.mod_pos_bound (x + 2 ^ 31) (2 ^ 32)) as H. lia.
Qed.

Lemma log2_below_31 (z : Z) : (0 <= z < 2 ^ 31)%Z -> (Z.log2 z < 31)%Z.
Proof.
  intros [Hlo Hhi]. destruct (Z.eq_dec z 0%Z) as [-> | Hz]; [reflexivity |].
  apply Z.log2_lt_pow2; lia.
Qed.

(** Above bit 31 an int32 repeats its sign bit. *)
Lemma int32_high_bits (y n : Z) :
  int32 y -> (31 <= n)%Z -> Z.testbit y n = Z.testbit y 31.
Proof.
  intros [Hlo Hhi] Hn. destruct (Z_lt_le_dec y 0%Z) as [Hneg | Hpos].
  - assert (Hlog : (Z.log2 (Z.pred (- y)) < 31)%Z)
      by (apply log2_below_31; lia).
    rewrite !Z.bits_above_log2_neg by lia. reflexivity.
  - assert (Hlog : (Z.log2 y < 31)%Z) by (apply log2_below_31; lia).
    rewrite !Z.bits_above_log2 by lia. reflexivity.
Qed.

Lemma testbit_bitor_high (a : option Z) (m n : Z) :
  (31 <= n)%Z -> Z.testbit (bitor a m) n = Z.testbit (bitor a m) 31.
Proof.
  intros Hn. unfold bitor. rewrite !Z.lor_spec.
  rewrite (int32_high_bits (ToInt32 m) n (ToInt32_range m) Hn).
  destruct a as [x |].
  - rewrite (int32_high_bits (ToInt32 x) n (ToInt32_range x) Hn). reflexivity.
  - rewrite !Z.bits_0. reflexivity.
Qed.

(** [augmentJob] leaves [flags] alone or stores the result of a [|=]. *)
Lemma augmentJob_flags (cb : JsVal) (isPre : bool)
  (instance : option ComponentInstance) (job : SchedulerJob) :
  SchedulerJob.flags (augmentJob cb isPre instance job) =
    SchedulerJob.flags job \/
  exists a m,
    SchedulerJob.flags (augmentJob cb isPre instance job) = Some (bitor a m).
Proof.
  unfold augmentJob.
  destruct (truthy cb), isPre, instance; cbn; eauto.
Qed.

(** The bits of the flag word after [augmentJob], within the 32-bit word. *)
Lemma augmentJob_bits (cb : JsVal) (isPre : bool)
  (instance : option ComponentInstance) (job : SchedulerJob) (n : Z) :
  (0 <= n < 32)%Z ->
  Z.testbit (SchedulerJob.flag_word (augmentJob cb isPre instance job)) n =
  (Z.testbit (SchedulerJob.flag_word job) n
   || (truthy cb && Z.testbit ALLOW_RECURSE n)
   || (isPre && Z.testbit PRE n))%bool.
Proof.
  intros Hn. unfold augmentJob, SchedulerJob.flag_word.
  destruct (truthy cb), isPre, instance; cbn;
    rewrite ?testbit_bitor by assumption; cbn;
    rewrite ?testbit_bitor by assumption;
    rewrite ?orb_false_r; reflexivity.
Qed.

Lemma augmentJob_frame_fields (cb : JsVal) (isPre : bool)
  (instance : option ComponentInstance) (job : SchedulerJob) :
  SchedulerJob.ref (augmentJob cb isPre instance job) = SchedulerJob.ref job /\
  SchedulerJob.others (augmentJob cb isPre instance job) =
    SchedulerJob.others job.
Proof.
  unfold augmentJob. destruct (truthy cb), isPre, instance; split; reflexivity.
Qed.

Lemma augmentJob_ordering_key (cb : JsVal) (isPre : bool)
  (instance : option ComponentInstance) (job : SchedulerJob) :
  match isPre, instance with
  | true, Some inst =>
      SchedulerJob.id (augmentJob cb isPre instance job) = Some (uid inst) /\
      SchedulerJob.i (augmentJob cb isPre instance job) = Some inst
  | _, _ =>
      SchedulerJob.id (augmentJob cb isPre instance job) =
        SchedulerJob.id job /\
      SchedulerJob.i (augmentJob cb isPre instance job) = SchedulerJob.i job
  end.
Proof.
  unfold augmentJob. destruct (truthy cb), isPre, instance; split; reflexivity.
Qed.

Lemma augmentJob_sets_ALLOW_RECURSE (cb : JsVal) (isPre : bool)
  (instance : option ComponentInstance) (job : SchedulerJob) :
  flag_mask ALLOW_RECURSE ->
  truthy cb = true ->
  SchedulerJob.has_flag (augmentJob cb isPre instance job) ALLOW_RECURSE.
Proof.
  intros Hm Hcb. apply has_flag_bits; [assumption |]. intros n Hn Hbit.
  rewrite augmentJob_bits by assumption. rewrite Hcb, Hbit.
  cbn. rewrite orb_true_r. reflexivity.
Qed.

Lemma augmentJob_keeps_ALLOW_RECURSE (cb : JsVal) (isPre : bool)
  (instance : option ComponentInstance) (job : SchedulerJob) :
  flag_mask ALLOW_RECURSE ->
  Z.land ALLOW_RECURSE PRE = 0%Z ->
  truthy cb = false ->
  SchedulerJob.has_flag (augmentJob cb isPre instance job) ALLOW_RECURSE <->
  SchedulerJob.has_flag job ALLOW_RECURSE.
Proof.
  intros Hm Hdis Hcb. rewrite !has_flag_bits by assumption.
  split; intros H n Hn Hbit; specialize (H n Hn Hbit).
  - rewrite augmentJob_bits in H by assumption.
    rewrite Hcb, (disjoint_bits _ _ _ Hdis Hbit) in H.
    cbn in H. rewrite andb_false_r, !orb_false_r in H. exact H.
  - rewrite augmentJob_bits by assumption. rewrite H. reflexivity.
Qed.

Lemma augmentJob_sets_PRE (cb : JsVal)
  (instance : option ComponentInstance) (job : SchedulerJob) :
  flag_mask PRE ->
  SchedulerJob.has_flag (augmentJob cb true instance job) PRE.
Proof.
  intros Hm. apply has_flag_bits; [assumption |]. intros n Hn Hbit.
  rewrite augmentJob_bits by assumption. rewrite Hbit.
  cbn. apply orb_true_r.
Qed.

Lemma augmentJob_keeps_PRE (cb : JsVal)
  (instance : option ComponentInstance) (job : SchedulerJob) :
  flag_mask PRE ->
  Z.land ALLOW_RECURSE PRE = 0%Z ->
  SchedulerJob.has_flag (augmentJob cb false instance job) PRE <->
  SchedulerJob.has_flag job PRE.
Proof.
  intros Hm Hdis. rewrite !has_flag_bits by assumption.
  rewrite Z.land_comm in Hdis.
  split; intros H n Hn Hbit; specialize (H n Hn Hbit).
  - rewrite augmentJob_bits in H by assumption.
    rewrite (disjoint_bits _ _ _ Hdis Hbit) in H.
    cbn in H. rewrite andb_false_r, !orb_false_r in H. exact H.
  - rewrite augmentJob_bits by assumption. rewrite H. reflexivity.
Qed.

(** ** Job augmentation *)

(** C2. The [augmentJob] hook sets ALLOW_RECURSE exactly when a callback was
    given; the three effect entry points, which pass no callback, never set
    it. *)
Theorem allow_recurse_iff_callback (w : World) (env : Env) (source : Source)
  (cb : JsVal) (options : option Obj) (job : SchedulerJob) :
  warn_returns w ->
  flag_mask ALLOW_RECURSE ->
  Z.land ALLOW_RECURSE PRE = 0%Z ->
  callback_or_null cb ->
  ~ SchedulerJob.has_flag job ALLOW_RECURSE ->
  (exists aug,
      installed_augmentJob w (doWatch env source cb options) = Some aug /\
      (SchedulerJob.has_flag (aug job) ALLOW_RECURSE <-> cb <> VNull)) /\
  (exists aug,
      installed_augmentJob w (watchEffect env source options) = Some aug /\
      ~ SchedulerJob.has_flag (aug job) ALLOW_RECURSE) /\
  (exists aug,
      installed_augmentJob w (watchPostEffect env source options) = Some aug /\
      ~ SchedulerJob.has_flag (aug job) ALLOW_RECURSE) /\
  (exists aug,
      installed_augmentJob w (watchSyncEffect env source options) = Some aug /\
      ~ SchedulerJob.has_flag (aug job) ALLOW_RECURSE).
Proof.
  intros Hw Hm Hdis Hcb Hjob.
  assert (Heffect : forall o,
    exists aug,
      installed_augmentJob w (doWatch env source VNull o) = Some aug /\
      ~ SchedulerJob.has_flag (aug job) ALLOW_RECURSE).
  { intros o. eexists. split; [apply doWatch_installed_augmentJob; assumption |].
    rewrite augmentJob_keeps_ALLOW_RECURSE by (assumption || reflexivity).
    assumption. }
  split; [| repeat split; apply Heffect].
  eexists. split; [apply doWatch_installed_augmentJob; assumption |].
  destruct Hcb as [-> | [f ->]].
  - rewrite augmentJob_keeps_ALLOW_RECURSE by (assumption || reflexivity).
    split; [contradiction | congruence].
  - split; [discriminate |]. intros _.
    apply augmentJob_sets_ALLOW_RECURSE; [assumption | reflexivity].
Qed.

(** C3. With flush 'pre' or no flush the hook sets PRE and, if an instance
    was current at registration, stores its [uid] as [job.id] and the
    instance as [job.i]; without an instance [job.id] and [job.i] stay as
    they were.  With flush 'post' or 'sync' the hook leaves PRE, [job.id]
    and [job.i] as they were. *)
Theorem pre_flag_and_ordering_key (w : World) (env : Env) (source : Source)
  (cb : JsVal) (options : option Obj) (job : SchedulerJob) :
  warn_returns w ->
  flag_mask PRE ->
  Z.land ALLOW_RECURSE PRE = 0%Z ->
  exists aug,
    installed_augmentJob w (doWatch env source cb options) = Some aug /\
    (flush_of options = VStr "pre" \/ flush_of options = VUndefined ->
     SchedulerJob.has_flag (aug job) PRE /\
     match currentInstance env with
     | Some inst =>
         SchedulerJob.id (aug job) = Some (uid inst) /\
         SchedulerJob.i (aug job) = Some inst
     | None =>
         SchedulerJob.id (aug job) = SchedulerJob.id job /\
         SchedulerJob.i (aug job) = SchedulerJob.i job
     end) /\
    (flush_of options = VStr "post" \/ flush_of options = VStr "sync" ->
     (SchedulerJob.has_flag (aug job) PRE <-> SchedulerJob.has_flag job PRE) /\
     SchedulerJob.id (aug job) = SchedulerJob.id job /\
     SchedulerJob.i (aug job) = SchedulerJob.i job).
Proof.
  intros Hw Hm Hdis.
  eexists. split; [apply doWatch_installed_augmentJob; assumption |].
  split.
  - intros Hflush. apply flush_pre_or_omitted in Hflush as [_ ->].
    split; [apply augmentJob_sets_PRE; assumption |].
    pose proof (augmentJob_ordering_key cb true (currentInstance env) job)
      as Hkey.
    destruct (currentInstance env); exact Hkey.
  - intros Hflush.
    assert (Hpre : is_pre options = false).
    { destruct Hflush as [H | H];
        [apply flush_post in H | apply flush_sync in H]; tauto. }
    rewrite Hpre.
    split; [apply augmentJob_keeps_PRE; assumption |].
    exact (augmentJob_ordering_key cb false (currentInstance env) job).
Qed.

(** C9. The hook only adds to the job: every bit of the 32-bit flag word
    that was set stays set, a bit set afterwards was set before or belongs
    to ALLOW_RECURSE or PRE, the job's identity and its other properties
    are untouched, and [job.id] and [job.i] change only for a pre-flush
    watch with an instance. *)
Theorem augmentJob_frame (w : World) (env : Env) (source : Source)
  (cb : JsVal) (options : option Obj) (job : SchedulerJob) :
  warn_returns w ->
  exists aug,
    installed_augmentJob w (doWatch env source cb options) = Some aug /\
    (forall n, (0 <= n < 32)%Z ->
       Z.testbit (SchedulerJob.flag_word job) n = true ->
       Z.testbit (SchedulerJob.flag_word (aug job)) n = true) /\
    (int32 (SchedulerJob.flag_word job) ->
     forall n,
       Z.testbit (SchedulerJob.flag_word job) n = true ->
       Z.testbit (SchedulerJob.flag_word (aug job)) n = true) /\
    (forall n, (0 <= n < 32)%Z ->
       Z.testbit (SchedulerJob.flag_word (aug job)) n = true ->
       Z.testbit (SchedulerJob.flag_word job) n = true \/
       Z.testbit ALLOW_RECURSE n = true \/ Z.testbit PRE n = true) /\
    SchedulerJob.ref (aug job) = SchedulerJob.ref job /\
    SchedulerJob.others (aug job) = SchedulerJob.others job /\
    (is_pre options = false \/ currentInstance env = None ->
     SchedulerJob.id (aug job) = SchedulerJob.id job /\
     SchedulerJob.i (aug job) = SchedulerJob.i job).
Proof.
  intros Hw.
  eexists. split; [apply doWatch_installed_augmentJob; assumption |].
  split.
  { intros n Hn Hbit. rewrite augmentJob_bits by assumption.
    rewrite Hbit. reflexivity. }
  split.
  { intros Hword n Hbit.
    destruct (Z_lt_le_dec n 0%Z) as [Hneg | Hpos];
      [rewrite Z.testbit_neg_r in Hbit by assumption; discriminate |].
    destruct (Z_lt_le_dec n 32%Z) as [Hlow | Hhigh].
    { rewrite augmentJob_bits by lia. rewrite Hbit. reflexivity. }
    destruct (augmentJob_flags cb (is_pre options) (currentInstance env) job)
      as [Hsame | (a & m & Hset)].
    { unfold SchedulerJob.flag_word in *. rewrite Hsame. exact Hbit. }
    rewrite (int32_high_bits _ n Hword) in Hbit by lia.
    unfold SchedulerJob.flag_word at 1. rewrite Hset.
    rewrite testbit_bitor_high by lia.
    pose proof (augmentJob_bits cb (is_pre options) (currentInstance env)
                  job 31 ltac:(lia)) as H31.
    unfold SchedulerJob.flag_word at 1 in H31. rewrite Hset in H31.
    rewrite H31, Hbit. reflexivity. }
  split.
  { intros n Hn Hbit. rewrite augmentJob_bits in Hbit by assumption.
    apply orb_true_iff in Hbit as [Hbit | Hbit].
    - apply orb_true_iff in Hbit as [Hbit | Hbit]; [left; assumption |].
      apply andb_true_iff in Hbit. tauto.
    - apply andb_true_iff in Hbit. tauto. }
  split; [apply augmentJob_frame_fields |].
  split; [apply augmentJob_frame_fields |].
  intros Hno.
  pose proof
    (augmentJob_ordering_key cb (is_pre options) (currentInstance env) job)
    as Hkey.
  destruct Hno as [Hno | Hno]; rewrite Hno in Hkey |- *.
  - exact Hkey.
  - destruct (is_pre options); exact Hkey.
Qed.

(** ** Options that only differ where the adapter does not look *)

Lemma passed_onWarn (env : Env) (cb : JsVal) (options : option Obj) :
  passed_options env cb options !! "onWarn" =
  if __DEV__ env then Some (VFun warn_fn) else spread options !! "onWarn".
Proof.
  unfold passed_options.
  rewrite lookup_insert_ne by discriminate.
  rewrite with_scheduler_other by discriminate.
  rewrite lookup_insert_ne by discriminate.
  unfold with_onWarn. destruct (__DEV__ env);
    [apply lookup_insert_eq | reflexivity].
Qed.

(** Two option objects that agree on [flush], [scheduler] and on [k] are
    handed to the engine with the same [k]. *)
Lemma passed_options_agree (env : Env) (cb : JsVal)
  (options1 options2 : option Obj) (k : string) :
  strict_eq_str (flush_of options1) "post" =
    strict_eq_str (flush_of options2) "post" ->
  is_pre options1 = is_pre options2 ->
  spread options1 !! "scheduler" = spread options2 !! "scheduler" ->
  spread options1 !! k = spread options2 !! k ->
  passed_options env cb options1 !! k = passed_options env cb options2 !! k.
Proof.
  intros Hpost Hpre Hsched Hk.
  destruct (decide (k = "augmentJob")) as [-> | H1].
  { rewrite !passed_augmentJob, Hpre. reflexivity. }
  destruct (decide (k = "scheduler")) as [-> | H2].
  { rewrite !passed_scheduler, Hpost, Hpre, Hsched. reflexivity. }
  destruct (decide (k = "call")) as [-> | H3].
  { rewrite !passed_call. reflexivity. }
  destruct (decide (k = "onWarn")) as [-> | H4].
  { rewrite !passed_onWarn, Hk. reflexivity. }
  rewrite !passed_other by assumption. exact Hk.
Qed.


(** C5. A registration without [flush] and the same registration with
    flush 'pre' hand the engine the same options apart from [flush] itself:
    the same scheduler, the same [augmentJob] (the one of a pre-flush
    watch), the same [call], and they emit the same diagnostics. *)
Theorem omitted_flush_is_pre (w : World) (env : Env) (source : Source)
  (cb : JsVal) (options1 options2 : option Obj) :
  warn_returns w ->
  flush_of options1 = VUndefined ->
  flush_of options2 = VStr "pre" ->
  (forall k, k <> "flush" -> spread options1 !! k = spread options2 !! k) ->
  exists o1 o2,
    registered w (doWatch env source cb options1) = Some o1 /\
    registered w (doWatch env source cb options2) = Some o2 /\
    (forall k, k <> "flush" -> o1 !! k = o2 !! k) /\
    installed_scheduler w (doWatch env source cb options1) = Some scheduler /\
    installed_scheduler w (doWatch env source cb options2) = Some scheduler /\
    installed_augmentJob w (doWatch env source cb options1) =
      Some (augmentJob cb true (currentInstance env)) /\
    installed_augmentJob w (doWatch env source cb options2) =
      Some (augmentJob cb true (currentInstance env)) /\
    installed_call w (doWatch env source cb options1) =
      installed_call w (doWatch env source cb options2) /\
    diagnostics (trace w (doWatch env source cb options1)) =
      diagnostics (trace w (doWatch env source cb options2)).
Proof.
  intros Hw H1 H2 Hagree.
  destruct (flush_pre_or_omitted options1 (or_intror H1)) as [Hpost1 Hpre1].
  destruct (flush_pre_or_omitted options2 (or_introl H2)) as [Hpost2 Hpre2].
  exists (passed_options env cb options1), (passed_options env cb options2).
  split; [apply doWatch_registered; assumption |].
  split; [apply doWatch_registered; assumption |].
  split.
  { intros k Hk. apply passed_options_agree.
    - congruence.
    - congruence.
    - apply Hagree. discriminate.
    - apply Hagree. assumption. }
  rewrite !doWatch_installed_scheduler, !doWatch_installed_augmentJob,
    !doWatch_installed_call, !doWatch_diagnostics by assumption.
  rewrite !passed_scheduler, Hpost1, Hpost2, Hpre1, Hpre2.
  repeat split.
  unfold misuse_diagnostics, prop.
  rewrite !Hagree by discriminate. reflexivity.
Qed.

(** ** Misuse diagnostics *)


(** ** The effect entry points *)

Lemma flush_of_forced (o : Obj) (mode : string) :
  flush_of (Some (<["flush" := VStr mode]> o)) = VStr mode.
Proof. unfold flush_of, prop, spread. rewrite lookup_insert_eq. reflexivity. Qed.

Lemma flush_of_only (mode : string) :
  flush_of (Some {["flush" := VStr mode]}) = VStr mode.
Proof.
  unfold flush_of, prop, spread. rewrite lookup_singleton_eq. reflexivity.
Qed.

Lemma forced_flush_of (env : Env) (options : option Obj) (mode : string) :
  flush_of
    (Some (if __DEV__ env then <["flush" := VStr mode]> (spread options)
           else {["flush" := VStr mode]})) = VStr mode.
Proof.
  destruct (__DEV__ env); [apply flush_of_forced | apply flush_of_only].
Qed.

Lemma forced_flush_lookup (env : Env) (options : option Obj) (mode k : string) :
  spread
    (Some (if __DEV__ env then <["flush" := VStr mode]> (spread options)
           else {["flush" := VStr mode]})) !! k =
  if decide (k = "flush") then Some (VStr mode)
  else if __DEV__ env then spread options !! k else None.
Proof.
  unfold spread at 1. destruct (__DEV__ env), (decide (k = "flush")) as [-> | Hk].
  - apply lookup_insert_eq.
  - apply lookup_insert_ne. congruence.
  - apply lookup_singleton_eq.
  - apply lookup_singleton_ne. congruence.
Qed.

(** C10. [watchPostEffect] and [watchSyncEffect] register with flush 'post'
    and 'sync' whatever [flush] the caller's options hold: the engine gets
    [flush] 'post' with [queuePostCb] as scheduler, respectively [flush]
    'sync' with no scheduler and no pre-flush marking from the adapter.
    Outside development builds the caller's options are dropped: the
    program is the same for any options, and the engine gets nothing but
    [flush] and the adapter's own hooks. *)
Theorem post_and_sync_effects_force_flush (w : World) (env : Env)
  (effect : Source) (options : option Obj) :
  warn_returns w ->
  (exists o,
      registered w (watchPostEffect env effect options) = Some o /\
      o !! "flush" = Some (VStr "post") /\
      o !! "scheduler" = Some (VFun queuePostCb_fn) /\
      installed_scheduler w (watchPostEffect env effect options) =
        Some queuePostCb /\
      installed_augmentJob w (watchPostEffect env effect options) =
        Some (augmentJob VNull false (currentInstance env)) /\
      (__DEV__ env = false ->
       forall k, k <> "flush" -> k <> "call" -> k <> "scheduler" ->
                 k <> "augmentJob" -> o !! k = None)) /\
  (exists o,
      registered w (watchSyncEffect env effect options) = Some o /\
      o !! "flush" = Some (VStr "sync") /\
      o !! "scheduler" =
        (if __DEV__ env then spread options !! "scheduler" else None) /\
      installed_augmentJob w (watchSyncEffect env effect options) =
        Some (augmentJob VNull false (currentInstance env)) /\
      (__DEV__ env = false ->
       forall k, k <> "flush" -> k <> "call" -> k <> "augmentJob" ->
                 o !! k = None)) /\
  (__DEV__ env = false ->
   forall options',
     watchPostEffect env effect options' = watchPostEffect env effect options /\
     watchSyncEffect env effect options' = watchSyncEffect env effect options).
Proof.
  intros Hw. unfold watchPostEffect, watchSyncEffect.
  split; [| split].
  - pose proof (forced_flush_of env options "post") as Hflush.
    destruct (flush_post _ Hflush) as [Hpost Hpre].
    eexists. split; [apply doWatch_registered; assumption |].
    rewrite doWatch_installed_scheduler, doWatch_installed_augmentJob
      by assumption.
    rewrite passed_scheduler, Hpost, Hpre.
    split.
    { rewrite passed_other by discriminate.
      rewrite forced_flush_lookup. reflexivity. }
    split; [reflexivity |]. split; [reflexivity |]. split; [reflexivity |].
    intros Hdev k H1 H2 H3 H4.
    destruct (decide (k = "onWarn")) as [-> | H5].
    + rewrite passed_onWarn, forced_flush_lookup, Hdev. reflexivity.
    + rewrite passed_other by assumption.
      rewrite forced_flush_lookup, Hdev.
      destruct (decide (k = "flush")); [contradiction | reflexivity].
  - pose proof (forced_flush_of env options "sync") as Hflush.
    destruct (flush_sync _ Hflush) as [Hpost Hpre].
    eexists. split; [apply doWatch_registered; assumption |].
    rewrite doWatch_installed_augmentJob by assumption.
    rewrite passed_scheduler, Hpost, Hpre.
    split.
    { rewrite passed_other by discriminate.
      rewrite forced_flush_lookup. reflexivity. }
    split; [rewrite forced_flush_lookup; reflexivity |].
    split; [reflexivity |].
    intros Hdev k H1 H2 H4.
    destruct (decide (k = "scheduler")) as [-> | H3].
    { rewrite passed_scheduler, Hpost, Hpre, forced_flush_lookup, Hdev.
      reflexivity. }
    destruct (decide (k = "onWarn")) as [-> | H5].
    + rewrite passed_onWarn, forced_flush_lookup, Hdev. reflexivity.
    + rewrite passed_other by assumption.
      rewrite forced_flush_lookup, Hdev.
      destruct (decide (k = "flush")); [contradiction | reflexivity].
  - intros Hdev options'. rewrite Hdev. split; reflexivity.
Qed.

(** * Beyond the claims *)

(** ** Runs that make no diagnostic *)

(** Without a diagnostic to emit, [doWatch] is the registration alone, in
    any world. *)
Lemma doWatch_exec_silent (w : World) (env : Env) (source : Source)
  (cb : JsVal) (options : option Obj) :
  __DEV__ env && negb (truthy cb) = false ->
  exec w (doWatch env source cb options) =
  ([BaseWatch source cb (passed_options env cb options)],
   w (BaseWatch source cb (passed_options env cb options))).
Proof.
  intros Hsilent.
  unfold doWatch, passed_options, with_scheduler, with_onWarn, is_pre,
    flush_of.
  rewrite spread_default, Hsilent.
  destruct (__DEV__ env),
    (strict_eq_str (prop (spread options) "flush") "post"),
    (strict_eq_str (prop (spread options) "flush") "sync");
    cbn [andb negb when bind warn baseWatch trigger exec map app];
    match goal with
    | |- context [w (BaseWatch ?a ?b ?c)] => destruct (w (BaseWatch a b c))
    end; reflexivity.
Qed.

Lemma watch_exec_silent (w : World) (env : Env) (source : Source)
  (cb : JsVal) (options : option Obj) :
  __DEV__ env && negb (isFunction cb) = false ->
  __DEV__ env && negb (truthy cb) = false ->
  exec w (watch env source cb options) =
  ([BaseWatch source cb (passed_options env cb options)],
   w (BaseWatch source cb (passed_options env cb options))).
Proof.
  intros Hfn Hsilent. unfold watch. rewrite exec_bind, Hfn.
  cbn [when exec]. rewrite doWatch_exec_silent by assumption. reflexivity.
Qed.

Lemma isFunction_truthy (cb : JsVal) : isFunction cb = true -> truthy cb = true.
Proof. destruct cb; cbn; congruence. Qed.

(** X1. A [watch] with a function as callback makes one collaborator call,
    the registration, with source and callback as given: no diagnostic in
    any build, whatever the options, and its outcome is the engine's. *)
Theorem watch_with_callback_only_registers (w : World) (env : Env)
  (source : Source) (cb : JsVal) (options : option Obj) :
  isFunction cb = true ->
  exists o,
    trace w (watch env source cb options) = [BaseWatch source cb o] /\
    outcome w (watch env source cb options) = w (BaseWatch source cb o).
Proof.
  intros Hfn. exists (passed_options env cb options).
  unfold trace, outcome. rewrite watch_exec_silent.
  - split; reflexivity.
  - rewrite Hfn. apply andb_false_r.
  - rewrite (isFunction_truthy cb Hfn). apply andb_false_r.
Qed.

(** X2. In a development build a [watch] whose callback is not a function
    first says that the signature has moved, then says what [doWatch] says,
    and still registers, with that callback as given. *)
Theorem watch_without_function_warns_first (w : World) (env : Env)
  (source : Source) (cb : JsVal) (options : option Obj) :
  warn_returns w ->
  __DEV__ env = true ->
  isFunction cb = false ->
  diagnostics (trace w (watch env source cb options)) =
    signature_moved :: diagnostics (trace w (doWatch env source cb options)) /\
  registrations (trace w (watch env source cb options)) =
    registrations (trace w (doWatch env source cb options)) /\
  (exists o,
      registrations (trace w (watch env source cb options)) =
        [(source, cb, o)]) /\
  outcome w (watch env source cb options) =
    outcome w (doWatch env source cb options).
Proof.
  intros Hw Hdev Hfn.
  rewrite doWatch_diagnostics, doWatch_registrations by assumption.
  unfold trace, outcome.
  rewrite watch_exec, doWatch_exec by assumption.
  rewrite Hdev, Hfn. cbn [andb negb fst snd map app diagnostics].
  rewrite diagnostics_app, diagnostics_warn.
  cbn [registrations]. rewrite registrations_app, registrations_warn.
  cbn. rewrite app_nil_r.
  split; [reflexivity |]. split; [reflexivity |].
  split; [eexists; reflexivity | reflexivity].
Qed.

(** X3. Outside development builds no entry point emits a diagnostic, in
    any world: each run is the registration alone, and [onWarn] is not
    installed, so the engine sees the caller's own [onWarn], if any. *)
Theorem production_build_is_silent (w : World) (env : Env) (source : Source)
  (cb : JsVal) (options : option Obj) :
  __DEV__ env = false ->
  (exists o,
      trace w (watch env source cb options) = [BaseWatch source cb o] /\
      o !! "onWarn" = spread options !! "onWarn") /\
  (exists o,
      trace w (watchEffect env source options) = [BaseWatch source VNull o] /\
      o !! "onWarn" = spread options !! "onWarn") /\
  (exists o,
      trace w (watchPostEffect env source options) =
        [BaseWatch source VNull o] /\
      o !! "onWarn" = None) /\
  (exists o,
      trace w (watchSyncEffect env source options) =
        [BaseWatch source VNull o] /\
      o !! "onWarn" = None).
Proof.
  intros Hdev.
  assert (Hsilent : forall c, __DEV__ env && c = false)
    by (intros c; rewrite Hdev; reflexivity).
  assert (HonWarn : forall c o,
            passed_options env c o !! "onWarn" = spread o !! "onWarn")
    by (intros c o; rewrite passed_onWarn, Hdev; reflexivity).
  unfold watchEffect, watchPostEffect, watchSyncEffect, trace.
  rewrite watch_exec_silent by apply Hsilent.
  rewrite !doWatch_exec_silent by apply Hsilent.
  rewrite Hdev. cbn [fst].
  split; [eexists; split; [reflexivity | apply HonWarn] |].
  split; [eexists; split; [reflexivity | apply HonWarn] |].
  split; eexists; (split; [reflexivity |]);
    rewrite HonWarn; unfold spread;
    apply lookup_singleton_ne; discriminate.
Qed.

(** X4. In a development build the engine's [onWarn] is the adapter's
    [warn], whatever [onWarn] the caller's options hold. *)
Theorem development_build_installs_onWarn (w : World) (env : Env)
  (source : Source) (cb : JsVal) (options : option Obj) :
  warn_returns w ->
  __DEV__ env = true ->
  exists o,
    registered w (doWatch env source cb options) = Some o /\
    o !! "onWarn" = Some (VFun warn_fn).
Proof.
  intros Hw Hdev. exists (passed_options env cb options).
  split; [apply doWatch_registered; assumption |].
  rewrite passed_onWarn, Hdev. reflexivity.
Qed.

(** ** Flush values and the scheduler property *)

Lemma strict_eq_str_false (v : JsVal) (s : string) :
  v <> VStr s -> strict_eq_str v s = false.
Proof.
  intros Hv. destruct v as [| | | | s' |]; try reflexivity.
  cbn. apply String.eqb_neq. congruence.
Qed.

Lemma strict_eq_str_true (v : JsVal) (s : string) :
  strict_eq_str v s = true -> v = VStr s.
Proof.
  destruct v as [| | | | s' |]; cbn; try discriminate.
  intros H. apply String.eqb_eq in H. congruence.
Qed.

(** X5. Any [flush] that is neither the string 'post' nor the string 'sync'
    (null, a number, a boolean, another string) is taken as 'pre': the
    scheduler is the run-first-then-queue closure and the hook marks the
    job PRE. *)
Theorem other_flush_values_are_pre (w : World) (env : Env) (source : Source)
  (cb : JsVal) (options : option Obj) (job : SchedulerJob) :
  warn_returns w ->
  flag_mask PRE ->
  flush_of options <> VStr "post" ->
  flush_of options <> VStr "sync" ->
  installed_scheduler w (doWatch env source cb options) = Some scheduler /\
  installed_augmentJob w (doWatch env source cb options) =
    Some (augmentJob cb true (currentInstance env)) /\
  SchedulerJob.has_flag (augmentJob cb true (currentInstance env) job) PRE.
Proof.
  intros Hw Hm Hpost Hsync.
  apply strict_eq_str_false in Hpost, Hsync.
  assert (Hpre : is_pre options = true)
    by (unfold is_pre; rewrite Hpost, Hsync; reflexivity).
  rewrite doWatch_installed_scheduler, doWatch_installed_augmentJob
    by assumption.
  rewrite passed_scheduler, Hpost, Hpre.
  split; [reflexivity |]. split; [reflexivity |].
  apply augmentJob_sets_PRE. assumption.
Qed.

(** X6. The [scheduler] the engine receives: [queuePostCb] for flush 'post',
    the caller's own [scheduler] property, untouched, for flush 'sync', and
    the adapter's closure otherwise, replacing whatever the caller put
    there. *)
Theorem scheduler_property_by_flush (w : World) (env : Env) (source : Source)
  (cb : JsVal) (options : option Obj) :
  warn_returns w ->
  exists o,
    registered w (doWatch env source cb options) = Some o /\
    (flush_of options = VStr "post" ->
     o !! "scheduler" = Some (VFun queuePostCb_fn)) /\
    (flush_of options = VStr "sync" ->
     o !! "scheduler" = spread options !! "scheduler") /\
    (flush_of options <> VStr "post" -> flush_of options <> VStr "sync" ->
     o !! "scheduler" = Some (VFun scheduler_closure)).
Proof.
  intros Hw. exists (passed_options env cb options).
  split; [apply doWatch_registered; assumption |].
  rewrite passed_scheduler.
  split; [| split].
  - intros H. apply flush_post in H as [-> _]. reflexivity.
  - intros H. apply flush_sync in H as [-> ->]. reflexivity.
  - intros Hpost Hsync. apply strict_eq_str_false in Hpost, Hsync.
    unfold is_pre. rewrite Hpost, Hsync. reflexivity.
Qed.

(** ** What reaches the engine *)

Lemma post_is_not_sync (v : JsVal) :
  strict_eq_str v "post" = true -> strict_eq_str v "sync" = false.
Proof. intros H. apply strict_eq_str_true in H. rewrite H. reflexivity. Qed.

(** X7. The options object handed to the engine is the caller's with the
    adapter's properties written over it: every other property is the
    caller's, and its keys are the caller's plus [call] and [augmentJob],
    plus [scheduler] unless flush is 'sync', plus [onWarn] in a development
    build. *)
Theorem options_are_forwarded (w : World) (env : Env) (source : Source)
  (cb : JsVal) (options : option Obj) :
  warn_returns w ->
  exists o,
    registered w (doWatch env source cb options) = Some o /\
    (forall k, ~ In k adapter_keys -> o !! k = spread options !! k) /\
    dom o =
      dom (spread options) ∪ {[ "call"; "augmentJob" ]} ∪
      (if strict_eq_str (flush_of options) "sync" then ∅
       else {[ "scheduler" ]}) ∪
      (if __DEV__ env then {[ "onWarn" ]} else ∅).
Proof.
  intros Hw. exists (passed_options env cb options).
  split; [apply doWatch_registered; assumption |].
  split.
  { intros k Hk. unfold adapter_keys in Hk. cbn in Hk.
    apply passed_other; intros ->; intuition. }
  unfold passed_options, with_scheduler, with_onWarn, is_pre.
  destruct (strict_eq_str (flush_of options) "post") eqn:Hpost.
  - rewrite (post_is_not_sync _ Hpost).
    destruct (__DEV__ env); rewrite !dom_insert_L;
      apply set_eq; intros x; set_unfold; tauto.
  - destruct (strict_eq_str (flush_of options) "sync"), (__DEV__ env);
      cbn [negb andb]; rewrite !dom_insert_L;
      apply set_eq; intros x; set_unfold; tauto.
Qed.

(** X8. [watch] and [doWatch] return what the engine returns for the one
    registration they make, with source and callback as given. *)
Theorem registration_returns_engine_handle (w : World) (env : Env)
  (source : Source) (cb : JsVal) (options : option Obj) :
  warn_returns w ->
  exists o,
    registrations (trace w (doWatch env source cb options)) =
      [(source, cb, o)] /\
    registrations (trace w (watch env source cb options)) =
      [(source, cb, o)] /\
    outcome w (doWatch env source cb options) = w (BaseWatch source cb o) /\
    outcome w (watch env source cb options) = w (BaseWatch source cb o).
Proof.
  intros Hw. exists (passed_options env cb options).
  split; [apply doWatch_registrations; assumption |].
  unfold trace, outcome.
  rewrite watch_exec, doWatch_exec by assumption. cbn [fst snd].
  rewrite !registrations_app, !registrations_warn.
  repeat split.
Qed.

(** ** Registration in any world *)






(** X10. The adapter does not guard its diagnostics: in a development
    build, when a registration without callback has one to emit and the
    channel throws, the run ends with that first diagnostic, the error
    leaves [doWatch] and the watch is not registered. *)
Theorem throwing_warn_prevents_registration (w : World) (env : Env)
  (source : Source) (cb : JsVal) (options : option Obj) (err : JsVal) :
  __DEV__ env = true ->
  truthy cb = false ->
  (exists k, In k misuse_keys /\
             not_undefined (prop (spread options) k) = true) ->
  (forall msg, w (Warn msg) = Thrown err) ->
  (exists msg, trace w (doWatch env source cb options) = [Warn msg]) /\
  registrations (trace w (doWatch env source cb options)) = [] /\
  outcome w (doWatch env source cb options) = Thrown err.
Proof.
  intros Hdev Hcb (k & Hin & Hk) Hthrow.
  unfold trace, outcome, doWatch. rewrite spread_default, Hdev, Hcb.
  unfold misuse_keys in Hin. cbn in Hin.
  destruct (not_undefined (prop (spread options) "immediate")) eqn:H1,
    (not_undefined (prop (spread options) "deep")) eqn:H2,
    (not_undefined (prop (spread options) "once")) eqn:H3;
    try (exfalso; intuition (subst; congruence));
    cbn [andb negb when bind warn trigger exec];
    rewrite !Hthrow; cbn; (split; [eexists; reflexivity | split; reflexivity]).
Qed.

(** ** More on job augmentation *)

Lemma augmentJob_nothing (cb : JsVal) (instance : option ComponentInstance)
  (job : SchedulerJob) :
  truthy cb = false -> augmentJob cb false instance job = job.
Proof. intros Hcb. unfold augmentJob. rewrite Hcb. reflexivity. Qed.

(** X11. For [watchPostEffect] and [watchSyncEffect] the hook does nothing:
    the job comes back as it went in, [flags] included, even when it is
    still undefined. *)
Theorem post_and_sync_effects_leave_job_alone (w : World) (env : Env)
  (effect : Source) (options : option Obj) (job : SchedulerJob) :
  warn_returns w ->
  (exists aug,
      installed_augmentJob w (watchPostEffect env effect options) = Some aug /\
      aug job = job) /\
  (exists aug,
      installed_augmentJob w (watchSyncEffect env effect options) = Some aug /\
      aug job = job).
Proof.
  intros Hw. unfold watchPostEffect, watchSyncEffect.
  rewrite !doWatch_installed_augmentJob by assumption.
  destruct (flush_post _ (forced_flush_of env options "post")) as [_ ->].
  destruct (flush_sync _ (forced_flush_of env options "sync")) as [_ ->].
  split; eexists; (split; [reflexivity |]);
    apply augmentJob_nothing; reflexivity.
Qed.

Lemma ToInt32_bitor (a : option Z) (m : Z) : ToInt32 (bitor a m) = bitor a m.
Proof.
  apply Z.bits_inj'. intros n Hn.
  destruct (Z_lt_le_dec n 32%Z) as [Hlow | Hhigh].
  - apply testbit_ToInt32. lia.
  - rewrite (int32_high_bits _ n (ToInt32_range _)) by lia.
    rewrite testbit_ToInt32 by lia.
    rewrite (testbit_bitor_high a m n) by lia. reflexivity.
Qed.

Lemma bitor_int32 (a : option Z) (m : Z) : int32 (bitor a m).
Proof. rewrite <- ToInt32_bitor. apply ToInt32_range. Qed.

Lemma bitor_again (a : option Z) (m m' : Z) :
  bitor (Some (bitor a m)) m' = Z.lor (bitor a m) (ToInt32 m').
Proof. unfold bitor at 1. rewrite ToInt32_bitor. reflexivity. Qed.

Ltac bitwise :=
  apply Z.bits_inj'; intros ? ?; rewrite ?Z.lor_spec;
  repeat match goal with
         | |- context [Z.testbit ?x ?n] => destruct (Z.testbit x n)
         end; reflexivity.

Lemma bitor_idempotent (a : option Z) (m : Z) :
  bitor (Some (bitor a m)) m = bitor a m.
Proof. rewrite bitor_again. unfold bitor. bitwise. Qed.

Lemma bitor_idempotent2 (a : option Z) (m m' : Z) :
  bitor (Some (bitor (Some (bitor (Some (bitor a m)) m')) m)) m' =
  bitor (Some (bitor a m)) m'.
Proof. rewrite !bitor_again. unfold bitor. bitwise. Qed.

(** X12. Augmenting twice is augmenting once: a job the hook has seen is
    left as it is by a second pass. *)
Theorem augmentJob_idempotent (cb : JsVal) (isPre : bool)
  (instance : option ComponentInstance) (job : SchedulerJob) :
  augmentJob cb isPre instance (augmentJob cb isPre instance job) =
  augmentJob cb isPre instance job.
Proof.
  unfold augmentJob.
  destruct (truthy cb), isPre, instance;
    unfold SchedulerJob.set_i, SchedulerJob.set_id, SchedulerJob.set_flags;
    cbn [SchedulerJob.ref SchedulerJob.flags SchedulerJob.id SchedulerJob.i
         SchedulerJob.others];
    rewrite ?bitor_idempotent2, ?bitor_idempotent; reflexivity.
Qed.

(** X13. When the hook writes [flags] (a callback is given or the watch is
    pre-flush) the value stored is a signed 32-bit integer, whatever the
    job held before; otherwise [flags] is not written. *)
Theorem augmentJob_flags_are_int32 (cb : JsVal) (isPre : bool)
  (instance : option ComponentInstance) (job : SchedulerJob) :
  if truthy cb || isPre then
    exists v,
      SchedulerJob.flags (augmentJob cb isPre instance job) = Some v /\
      int32 v
  else
    SchedulerJob.flags (augmentJob cb isPre instance job) =
    SchedulerJob.flags job.
Proof.
  unfold augmentJob.
  destruct (truthy cb), isPre, instance; cbn;
    try reflexivity; eexists; (split; [reflexivity | apply bitor_int32]).
Qed.

Lemma watch_installed_augmentJob (w : World) (env : Env) (source : Source)
  (cb : JsVal) (options : option Obj) :
  warn_returns w ->
  installed_augmentJob w (watch env source cb options) =
  Some (augmentJob cb (is_pre options) (currentInstance env)).
Proof.
  intros Hw. unfold installed_augmentJob.
  rewrite watch_registered by assumption.
  apply doWatch_installed_augmentJob. assumption.
Qed.

(** X14. ALLOW_RECURSE follows the truthiness of what [watch] was given as
    callback, not its being a function: a truthy non-function (which [watch]
    only warns about) sets the flag; undefined, null, 0, the empty string
    and false do not. *)
Theorem watch_allow_recurse_by_truthiness (w : World) (env : Env)
  (source : Source) (cb : JsVal) (options : option Obj) (job : SchedulerJob) :
  warn_returns w ->
  flag_mask ALLOW_RECURSE ->
  Z.land ALLOW_RECURSE PRE = 0%Z ->
  ~ SchedulerJob.has_flag job ALLOW_RECURSE ->
  exists aug,
    installed_augmentJob w (watch env source cb options) = Some aug /\
    (SchedulerJob.has_flag (aug job) ALLOW_RECURSE <-> truthy cb = true).
Proof.
  intros Hw Hm Hdis Hjob.
  eexists. split; [apply watch_installed_augmentJob; assumption |].
  destruct (truthy cb) eqn:Hcb.
  - split; [reflexivity |]. intros _.
    apply augmentJob_sets_ALLOW_RECURSE; assumption.
  - rewrite augmentJob_keeps_ALLOW_RECURSE by assumption.
    split; [contradiction | discriminate].
Qed.

(** X15. In a development build [watchPostEffect] and [watchSyncEffect]
    keep the caller's other options: every property but [flush] and the
    adapter's own reaches the engine as given, [onTrack] and [onTrigger]
    among them. *)
Theorem development_effects_keep_options (w : World) (env : Env)
  (effect : Source) (options : option Obj) :
  warn_returns w ->
  __DEV__ env = true ->
  (exists o,
      registered w (watchPostEffect env effect options) = Some o /\
      forall k, k <> "flush" -> ~ In k adapter_keys ->
                o !! k = spread options !! k) /\
  (exists o,
      registered w (watchSyncEffect env effect options) = Some o /\
      forall k, k <> "flush" -> ~ In k adapter_keys ->
                o !! k = spread options !! k).
Proof.
  intros Hw Hdev. unfold watchPostEffect, watchSyncEffect.
  split; eexists; (split; [apply doWatch_registered; assumption |]);
    intros k Hflush Hk; unfold adapter_keys in Hk; cbn in Hk;
    (rewrite passed_other by (intros ->; intuition));
    rewrite forced_flush_lookup, Hdev;
    (destruct (decide (k = "flush")); [contradiction | reflexivity]).
Qed.

End Adapter.

(** * The theorems at concrete registrations

    The flag masks are instantiated with PRE = 2 and ALLOW_RECURSE = 4, the
    world with [quiet]. *)

Lemma pre_scheduler_first_run_then_queue_witness :
  exists sched,
    installed_scheduler quiet (doWatch dev (SingleSource 0) VNull None) =
      Some sched /\
    forall (w' : World) (job : SchedulerJob),
      trace w' (sched job true) = [RunJob job] /\
      trace w' (sched job false) = [QueueJob job].
Proof.
  apply (pre_scheduler_first_run_then_queue quiet dev (SingleSource 0) VNull
           None).
  - intros msg. reflexivity.
  - right. reflexivity.
Defined.

Lemma sync_installs_no_scheduler_witness :
  exists baseWatchOptions,
    registered quiet
      (doWatch dev (SingleSource 0) (VFun (UserFn 1))
         (Some {["flush" := VStr "sync"]})) = Some baseWatchOptions /\
    baseWatchOptions !! "scheduler" = None.
Proof.
  destruct (sync_installs_no_scheduler quiet dev (SingleSource 0)
              (VFun (UserFn 1)) (Some {["flush" := VStr "sync"]}))
    as (o & Hreg & Hnone & _).
  - intros msg. reflexivity.
  - unfold WatchOptions_typed, WatchOptions_keys, spread.
    rewrite dom_singleton_L. intros k Hk.
    apply elem_of_singleton in Hk as ->.
    rewrite !elem_of_union, !elem_of_singleton. tauto.
  - reflexivity.
  - exists o. split; assumption.
Defined.

Lemma post_scheduler_is_queuePostCb_witness :
  exists baseWatchOptions,
    registered quiet
      (doWatch dev (SingleSource 0) (VFun (UserFn 1))
         (Some {["flush" := VStr "post"]})) = Some baseWatchOptions /\
    baseWatchOptions !! "scheduler" = Some (VFun queuePostCb_fn).
Proof.
  destruct (post_scheduler_is_queuePostCb quiet dev (SingleSource 0)
              (VFun (UserFn 1)) (Some {["flush" := VStr "post"]}))
    as (o & Hreg & Hsched & _).
  - intros msg. reflexivity.
  - reflexivity.
  - exists o. split; assumption.
Defined.

Lemma call_routes_through_error_handling_witness :
  exists callfn,
    installed_call quiet (doWatch dev (SingleSource 0) (VFun (UserFn 1)) None) =
      Some callfn /\
    trace quiet (callfn (VFun (UserFn 1)) "watcher callback" None) =
      [CallWithAsyncErrorHandling (VFun (UserFn 1)) None "watcher callback"
         None].
Proof.
  destruct (call_routes_through_error_handling quiet dev (SingleSource 0)
              (VFun (UserFn 1)) None) as (callfn & Hinst & Hcall).
  - intros msg. reflexivity.
  - exists callfn. split; [assumption |].
    apply (Hcall quiet (VFun (UserFn 1)) "watcher callback" None).
Defined.

Lemma allow_recurse_iff_callback_witness :
  exists aug,
    installed_augmentJob 4 2 quiet
      (doWatch dev (SingleSource 0) (VFun (UserFn 1)) None) = Some aug /\
    SchedulerJob.has_flag (aug fresh_job) 4.
Proof.
  destruct (allow_recurse_iff_callback 4 2 quiet dev (SingleSource 0)
              (VFun (UserFn 1)) None fresh_job)
    as ((aug & Hinst & Hiff) & _).
  - intros msg. reflexivity.
  - unfold flag_mask. lia.
  - reflexivity.
  - right. exists (UserFn 1). reflexivity.
  - unfold SchedulerJob.has_flag. cbn. discriminate.
  - exists aug. split; [assumption |]. apply Hiff. discriminate.
Defined.

Lemma pre_flag_and_ordering_key_witness :
  exists aug,
    installed_augmentJob 4 2 quiet
      (doWatch
         {| __DEV__ := false;
            currentInstance := Some {| uid := 7; instance_ref := 3 |} |}
         (SingleSource 0) (VFun (UserFn 1)) None) = Some aug /\
    SchedulerJob.has_flag (aug fresh_job) 2 /\
    SchedulerJob.id (aug fresh_job) = Some 7%Z.
Proof.
  destruct (pre_flag_and_ordering_key 4 2 quiet
              {| __DEV__ := false;
                 currentInstance := Some {| uid := 7; instance_ref := 3 |} |}
              (SingleSource 0) (VFun (UserFn 1)) None fresh_job)
    as (aug & Hinst & Hpre & _).
  - intros msg. reflexivity.
  - unfold flag_mask. lia.
  - reflexivity.
  - exists aug. split; [assumption |].
    destruct Hpre as (Hflag & Hid & _); [right; reflexivity |].
    split; assumption.
Defined.

Lemma augmentJob_frame_witness :
  exists aug,
    installed_augmentJob 4 2 quiet
      (doWatch dev (SingleSource 0) (VFun (UserFn 1)) None) = Some aug /\
    SchedulerJob.ref (aug (SchedulerJob.mk 5 (Some 1%Z) None None ∅)) = 5 /\
    Z.testbit
      (SchedulerJob.flag_word
         (aug (SchedulerJob.mk 5 (Some 1%Z) None None ∅))) 0 = true.
Proof.
  destruct (augmentJob_frame 4 2 quiet dev (SingleSource 0) (VFun (UserFn 1))
              None (SchedulerJob.mk 5 (Some 1%Z) None None ∅))
    as (aug & Hinst & Hkeep & _ & _ & Href & _).
  - intros msg. reflexivity.
  - exists aug. split; [assumption |]. split; [assumption |].
    apply Hkeep; [lia | reflexivity].
Defined.

Lemma omitted_flush_is_pre_witness :
  exists o1 o2,
    registered quiet (doWatch dev (SingleSource 0) (VFun (UserFn 1)) None) =
      Some o1 /\
    registered quiet
      (doWatch dev (SingleSource 0) (VFun (UserFn 1))
         (Some {["flush" := VStr "pre"]})) = Some o2 /\
    o1 !! "scheduler" = o2 !! "scheduler" /\
    o1 !! "augmentJob" = o2 !! "augmentJob".
Proof.
  destruct (omitted_flush_is_pre 4 2 quiet dev (SingleSource 0)
              (VFun (UserFn 1)) None (Some {["flush" := VStr "pre"]}))
    as (o1 & o2 & H1 & H2 & Hsame & _).
  - intros msg. reflexivity.
  - reflexivity.
  - reflexivity.
  - intros k Hk. unfold spread.
    rewrite lookup_singleton_ne by congruence. apply lookup_empty.
  - exists o1, o2. split; [assumption |]. split; [assumption |].
    split; apply Hsame; discriminate.
Defined.


Lemma post_and_sync_effects_force_flush_witness :
  exists o,
    registered quiet
      (watchPostEffect prod (SingleSource 0)
         (Some {["flush" := VStr "sync"]})) = Some o /\
    o !! "flush" = Some (VStr "post") /\
    o !! "scheduler" = Some (VFun queuePostCb_fn).
Proof.
  destruct (post_and_sync_effects_force_flush 4 2 quiet prod (SingleSource 0)
              (Some {["flush" := VStr "sync"]}))
    as ((o & Hreg & Hflush & Hsched & _) & _).
  - intros msg. reflexivity.
  - exists o. split; [assumption |]. split; assumption.
Defined.


(** ** The further theorems at concrete registrations *)

Lemma watch_with_callback_only_registers_witness :
  exists o,
    trace quiet (watch dev (SingleSource 0) (VFun (UserFn 1))
                   (Some {["immediate" := VBool true]})) =
      [BaseWatch (SingleSource 0) (VFun (UserFn 1)) o].
Proof.
  destruct (watch_with_callback_only_registers quiet dev (SingleSource 0)
              (VFun (UserFn 1)) (Some {["immediate" := VBool true]}))
    as (o & Htrace & _).
  - reflexivity.
  - exists o. exact Htrace.
Defined.

Lemma watch_without_function_warns_first_witness :
  diagnostics (trace quiet (watch dev (SingleSource 0) VNull None)) =
  signature_moved ::
    diagnostics (trace quiet (doWatch dev (SingleSource 0) VNull None)).
Proof.
  apply (watch_without_function_warns_first quiet dev (SingleSource 0) VNull
           None).
  - intros msg. reflexivity.
  - reflexivity.
  - reflexivity.
Defined.

Lemma production_build_is_silent_witness :
  exists o,
    trace (failing_warn VNull)
      (watch prod (SingleSource 0) VNull
         (Some {["immediate" := VBool true]})) =
      [BaseWatch (SingleSource 0) VNull o].
Proof.
  destruct (production_build_is_silent (failing_warn VNull) prod
              (SingleSource 0) VNull (Some {["immediate" := VBool true]}))
    as ((o & Htrace & _) & _).
  - reflexivity.
  - exists o. exact Htrace.
Defined.

Lemma development_build_installs_onWarn_witness :
  exists o,
    registered quiet
      (doWatch dev (SingleSource 0) (VFun (UserFn 1))
         (Some {["onWarn" := VFun (UserFn 2)]})) = Some o /\
    o !! "onWarn" = Some (VFun warn_fn).
Proof.
  apply (development_build_installs_onWarn quiet dev (SingleSource 0)
           (VFun (UserFn 1)) (Some {["onWarn" := VFun (UserFn 2)]})).
  - intros msg. reflexivity.
  - reflexivity.
Defined.

Lemma other_flush_values_are_pre_witness :
  installed_scheduler quiet
    (doWatch dev (SingleSource 0) (VFun (UserFn 1))
       (Some {["flush" := VNull]})) = Some scheduler.
Proof.
  apply (other_flush_values_are_pre 4 2 quiet dev (SingleSource 0)
           (VFun (UserFn 1)) (Some {["flush" := VNull]}) fresh_job).
  - intros msg. reflexivity.
  - unfold flag_mask. lia.
  - discriminate.
  - discriminate.
Defined.

Lemma scheduler_property_by_flush_witness :
  exists o,
    registered quiet
      (doWatch dev (SingleSource 0) (VFun (UserFn 1))
         (Some (<["scheduler" := VFun (UserFn 2)]>
                  {["flush" := VStr "sync"]}))) = Some o /\
    o !! "scheduler" = Some (VFun (UserFn 2)).
Proof.
  destruct (scheduler_property_by_flush quiet dev (SingleSource 0)
              (VFun (UserFn 1))
              (Some (<["scheduler" := VFun (UserFn 2)]>
                       {["flush" := VStr "sync"]})))
    as (o & Hreg & _ & Hsync & _).
  - intros msg. reflexivity.
  - exists o. split; [assumption |]. rewrite Hsync; reflexivity.
Defined.

Lemma options_are_forwarded_witness :
  exists o,
    registered quiet
      (doWatch dev (SingleSource 0) (VFun (UserFn 1))
         (Some {["deep" := VNum 2]})) = Some o /\
    o !! "deep" = Some (VNum 2).
Proof.
  destruct (options_are_forwarded quiet dev (SingleSource 0)
              (VFun (UserFn 1)) (Some {["deep" := VNum 2]}))
    as (o & Hreg & Hfwd & _).
  - intros msg. reflexivity.
  - exists o. split; [assumption |]. rewrite Hfwd; [reflexivity |].
    unfold adapter_keys. cbn. intuition discriminate.
Defined.

Lemma registration_returns_engine_handle_witness :
  exists o,
    outcome quiet (watch dev (SingleSource 0) (VFun (UserFn 1)) None) =
    quiet (BaseWatch (SingleSource 0) (VFun (UserFn 1)) o).
Proof.
  destruct (registration_returns_engine_handle quiet dev (SingleSource 0)
              (VFun (UserFn 1)) None) as (o & _ & _ & _ & Hout).
  - intros msg. reflexivity.
  - exists o. exact Hout.
Defined.

Lemma throwing_warn_prevents_registration_witness :
  registrations
    (trace (failing_warn (VStr "boom"))
       (doWatch dev (SingleSource 0) VNull (Some {["once" := VBool true]}))) =
  [].
Proof.
  apply (throwing_warn_prevents_registration (failing_warn (VStr "boom")) dev
           (SingleSource 0) VNull (Some {["once" := VBool true]})
           (VStr "boom")).
  - reflexivity.
  - reflexivity.
  - exists "once". split; [right; right; left; reflexivity | reflexivity].
  - intros msg. reflexivity.
Defined.

Lemma post_and_sync_effects_leave_job_alone_witness :
  exists aug,
    installed_augmentJob 4 2 quiet
      (watchPostEffect dev (SingleSource 0) None) = Some aug /\
    aug fresh_job = fresh_job.
Proof.
  apply (post_and_sync_effects_leave_job_alone 4 2 quiet dev (SingleSource 0)
           None fresh_job).
  intros msg. reflexivity.
Defined.

Lemma watch_allow_recurse_by_truthiness_witness :
  exists aug,
    installed_augmentJob 4 2 quiet
      (watch dev (SingleSource 0) (VNum 5) None) = Some aug /\
    SchedulerJob.has_flag (aug fresh_job) 4.
Proof.
  destruct (watch_allow_recurse_by_truthiness 4 2 quiet dev (SingleSource 0)
              (VNum 5) None fresh_job) as (aug & Hinst & Hiff).
  - intros msg. reflexivity.
  - unfold flag_mask. lia.
  - reflexivity.
  - unfold SchedulerJob.has_flag. cbn. discriminate.
  - exists aug. split; [assumption |]. apply Hiff. reflexivity.
Defined.

Lemma development_effects_keep_options_witness :
  exists o,
    registered quiet
      (watchPostEffect dev (SingleSource 0)
         (Some {["onTrack" := VFun (UserFn 3)]})) = Some o /\
    o !! "onTrack" = Some (VFun (UserFn 3)).
Proof.
  destruct (development_effects_keep_options quiet dev (SingleSource 0)
              (Some {["onTrack" := VFun (UserFn 3)]}))
    as ((o & Hreg & Hfwd) & _).
  - intros msg. reflexivity.
  - reflexivity.
  - exists o. split; [assumption |]. rewrite Hfwd.
    + reflexivity.
    + discriminate.
    + unfold adapter_keys. cbn. intuition discriminate.
Defined.
